(** * Black-hole illustration script: the numeric core

    A shallow embedding of the two functions of [src/code.py] that carry
    numeric meaning, [schwarzschild_radius] (lines 17-30) and
    [accretion_disk] (lines 33-49), and the properties the specification
    states about them.

    Two readings of the arithmetic are given.

    - The ideal reading, over the real numbers [R]: every Python/numpy
      operator is the exact real operation and every decimal literal is the
      rational it denotes.  This is the reading the specification uses (its
      data model speaks of "real numbers", its properties hold "within
      floating tolerance").  [accretion_disk] is embedded in this reading
      only, since it calls [np.exp], which has no bit-exact definition.
    - The binary64 reading of [schwarzschild_radius], in [Module Binary64],
      over the primitive IEEE-754 doubles: the function uses only
      multiplication and division of doubles, so its result can be computed
      bit for bit.

    Division by zero, which numpy answers with inf/nan and a warning, is
    outside the ideal reading; every statement below that divides by [Rs]
    or [5 * Rs] assumes [0 < Rs] (or [Rs < 0], or [Rs <> 0]).

    Of the driver (lines 52-155) the part that carries numbers is embedded
    too, in the ideal reading: the grid of lines 57-60, the extent of the
    image, and the positions of the circles, arrows and labels.  What
    matplotlib does with them is not modelled. *)

From Stdlib Require Import Reals Lra ZArith.
From Stdlib Require Floats.PrimFloat Floats.FloatOps Floats.SpecFloat.
From Stdlib Require Numbers.Cyclic.Int63.PrimInt63.
From stdpp Require Import base list option.

Open Scope R_scope.

(** ** numpy arrays *)

(** An [ndarray] of doubles: its shape and its cells in row-major order.
    A Python scalar is the array of shape [[]] with one cell. *)
Record ndarray := NDArray { shape : list nat; data : list R }.

(** The number of cells a shape announces. *)
Definition size_of (s : list nat) : nat := foldr Nat.mul 1%nat s.

Definition well_formed (a : ndarray) : Prop :=
  length (data a) = size_of (shape a).

Definition scalar (v : R) : ndarray := NDArray [] [v].

(** A unary ufunc, or a binary one with a Python scalar on one side:
    the shape is kept and [f] is applied to every cell. *)
Definition np_map (f : R → R) (a : ndarray) : ndarray :=
  NDArray (shape a) (f <$> data a).

(** A binary ufunc on two arrays of the same shape works cell by cell.
    On shapes that differ numpy either broadcasts or raises [ValueError];
    neither is modelled: the result is [None]. *)
Definition np_zip (f : R → R → R) (a b : ndarray) : option ndarray :=
  if decide (shape a = shape b)
  then Some (NDArray (shape a) (zip_with f (data a) (data b)))
  else None.

(** [np.clip(a, a_min, a_max)] is [np.minimum(a_max, np.maximum(a, a_min))]. *)
Definition clip (a_min a_max v : R) : R := Rmin a_max (Rmax v a_min).

Definition np_clip (a : ndarray) (a_min a_max : R) : ndarray :=
  np_map (clip a_min a_max) a.

(** ** [schwarzschild_radius] (lines 17-30), ideal reading *)

Definition schwarzschild_radius (M : R) : R :=
  let G := 6.67430e-11 in
  let c := 299792458 in
  let M := M * 1.98847e30 in
  2 * G * M / c ^ 2.

(** The closed form as the specification words it,
    [Rs = 2 * G * (M * Msun) / c^2], with its three named constants. *)
Module Spec.
Definition G : R := 6.67430e-11.
Definition c : R := 299792458.
Definition Msun : R := 1.98847e30.
Definition Rs (M : R) : R := 2 * G * (M * Msun) / c ^ 2.
End Spec.

(** Lines 53-54: the module-level mass and its radius. *)
Module Script.
Definition M : R := 10.
Definition Rs : R := schwarzschild_radius M.
End Script.

(** ** [accretion_disk] (lines 33-49), ideal reading

    The three local variables are kept as functions of their own, one per
    source line, each built from the numpy operations in the order Python
    evaluates them. *)

(** Line 44: [r = np.sqrt(x**2 + y**2)]. *)
Definition radial_distance (x y : ndarray) : option ndarray :=
  s ← np_zip Rplus (np_map (λ v, v ^ 2) x) (np_map (λ v, v ^ 2) y);
  Some (np_map sqrt s).

(** Line 46: [brightness = np.exp(-((r - Rs * 3) / Rs))]. *)
Definition brightness (r : ndarray) (Rs : R) : ndarray :=
  np_map exp
    (np_map Ropp
       (np_map (λ v, v / Rs)
          (np_map (λ v, v - Rs * 3) r))).

(** Line 48: [color = np.clip(1 - r / (5 * Rs), 0, 1)]. *)
Definition color (r : ndarray) (Rs : R) : ndarray :=
  np_clip (np_map (λ v, 1 - v) (np_map (λ v, v / (5 * Rs)) r)) 0 1.

(** Line 49: [return brightness * color]. *)
Definition accretion_disk (x y : ndarray) (Rs : R) : option ndarray :=
  r ← radial_distance x y;
  np_zip Rmult (brightness r Rs) (color r Rs).

(** The same three lines read for one cell. *)
Definition radial_cell (a b : R) : R := sqrt (a ^ 2 + b ^ 2).

Definition brightness_cell (Rs r : R) : R := exp (- ((r - Rs * 3) / Rs)).

Definition color_cell (Rs r : R) : R := clip 0 1 (1 - r / (5 * Rs)).

Definition field_cell (Rs a b : R) : R :=
  brightness_cell Rs (radial_cell a b) * color_cell Rs (radial_cell a b).

(** The reading of the specification's sentence on the shape of the
    brightness term: strictly increasing in [r] below [3 * Rs], strictly
    decreasing in [r] above it. *)
Definition brightness_peaks_at_3Rs (Rs : R) : Prop :=
  (∀ r1 r2, 0 <= r1 → r1 < r2 → r2 < 3 * Rs →
     brightness_cell Rs r1 < brightness_cell Rs r2) ∧
  (∀ r1 r2, 3 * Rs < r1 → r1 < r2 →
     brightness_cell Rs r2 < brightness_cell Rs r1).

(** ** [schwarzschild_radius], binary64 reading *)

Module Binary64.
Import PrimFloat FloatOps SpecFloat.
#[local] Set Warnings "-inexact-float".

(** [c ** 2] is computed on Python integers, exactly, and converted to a
    double (round to nearest, ties to even) by the division. *)
Definition c_squared : float := 89875517873681764%float.

Definition schwarzschild_radius (M : float) : float :=
  let G := 6.67430e-11%float in
  let M := (M * 1.98847e30)%float in
  (2 * G * M / c_squared)%float.

(** Lines 53-54: the module-level mass, a Python integer that the
    multiplication converts to the double 10.0, and its radius. *)
Definition M : float := 10%float.
Definition Rs : float := schwarzschild_radius M.

(** The specification's closed form on doubles, the square of [c] taken
    as the double product. *)
Definition G : float := 6.67430e-11%float.
Definition c : float := 299792458%float.
Definition Msun : float := 1.98847e30%float.
Definition closed_form (M : float) : float :=
  (2 * G * (M * Msun) / (c * c))%float.

(** The rational a finite double stands for, as a real number. *)
Definition to_R (f : float) : option R :=
  match Prim2SF f with
  | S754_zero _ => Some 0
  | S754_finite s m e =>
      let v := IZR (Zpos m) * powerRZ 2 e in
      Some (if s then - v else v)
  | S754_infinity _ | S754_nan => None
  end.
End Binary64.

(** ** The driver: the grid (lines 56-60) and the geometry drawn on it

    [np.linspace] and [np.meshgrid] are numpy's; they are embedded from
    what numpy computes, in the ideal reading. *)

(** [np.linspace(start, stop, num, endpoint=...)]: the integers
    [0 .. num - 1] are scaled by the step [(stop - start) / div], where
    [div] is [num - 1] with the end point and [num] without it (when the
    step is zero they are divided by [div] and multiplied by
    [stop - start]; when [div] is zero they are multiplied by
    [stop - start]), [start] is added, and with the end point and more than
    one sample the last sample is overwritten with [stop]. *)
Definition linspace (start stop : R) (num : nat) (endpoint : bool) : ndarray :=
  let div := if endpoint then (num - 1)%nat else num in
  let y := INR <$> seq 0 num in
  let delta := stop - start in
  let y :=
    if decide (0 < div)%nat then
      let step := delta / INR div in
      if Req_dec_T step 0
      then (λ v, v * delta) <$> ((λ v, v / INR div) <$> y)
      else (λ v, v * step) <$> y
    else (λ v, v * delta) <$> y in
  let y := (λ v, v + start) <$> y in
  NDArray [num]
    (if endpoint && bool_decide (1 < num)%nat
     then <[(num - 1)%nat := stop]> y
     else y).

(** [np.meshgrid(x, y)] on one-dimensional [x] and [y], with the default
    indexing: two arrays of shape [(len(y), len(x))], the first with the
    rows all equal to [x], the second with the columns all equal to [y]. *)
Definition meshgrid (x y : ndarray) : ndarray * ndarray :=
  let nx := length (data x) in
  let ny := length (data y) in
  (NDArray [ny; nx] (mjoin (replicate ny (data x))),
   NDArray [ny; nx] (mjoin ((λ v, replicate nx v) <$> data y))).

(** [a[i, j]] on a two-dimensional array, for indices that are not
    negative; [None] stands for [IndexError]. *)
Definition item2 (a : ndarray) (i j : nat) : option R :=
  match shape a with
  | [rows; cols] =>
      if decide (i < rows ∧ j < cols)%nat
      then data a !! (i * cols + j)%nat
      else None
  | _ => None
  end.

(** [a.min()] and [a.max()]; [None] stands for the [ValueError] on an
    empty array. *)
Definition np_min (a : ndarray) : option R :=
  match data a with
  | [] => None
  | v :: l => Some (foldl Rmin v l)
  end.

Definition np_max (a : ndarray) : option R :=
  match data a with
  | [] => None
  | v :: l => Some (foldl Rmax v l)
  end.

(** Lines 57-60 and the [extent] of line 66-70, with the radius of line 54
    and the number of samples (400 in the script) as parameters. *)
Module Driver.
Section Grid.
Variable Rs : R.
Variable num : nat.

Definition x : ndarray := linspace (-5 * Rs) (5 * Rs) num true.
Definition y : ndarray := linspace (-5 * Rs) (5 * Rs) num true.
Definition X : ndarray := (meshgrid x y).1.
Definition Y : ndarray := (meshgrid x y).2.
Definition Z : option ndarray := accretion_disk X Y Rs.
Definition extent : option R * option R * option R * option R :=
  (np_min x, np_max x, np_min y, np_max y).
End Grid.

(** The field of the script itself. *)
Definition script_Z : option ndarray := Z Script.Rs 400.
End Driver.

(** Lines 111-120 and 125-139: an [ax.annotate] call draws an arrow from
    [xytext] to [xy]. *)
Record annotation := Annotation { xy : R * R; xytext : R * R }.

(** The eight arrows of the Hawking radiation, one per angle. *)
Definition hawking_arrows (Rs : R) : list annotation :=
  (λ angle,
     Annotation (2 * Rs * cos angle, 2 * Rs * sin angle)
                (Rs * cos angle, Rs * sin angle))
  <$> data (linspace 0 (2 * PI) 8 false).

(** The arrow labelled "Interior Space". *)
Definition interior_space (Rs : R) : annotation :=
  Annotation (0, -0.5 * Rs) (3 * Rs, -2 * Rs).

(** Lines 78-79 and 99: a [patches.Circle] by its centre and radius. *)
Record circle := Circle { centre : R * R; radius : R }.

Definition event_horizon (Rs : R) : circle := Circle (0, 0) Rs.
Definition singularity (Rs : R) : circle := Circle (0, 0) (Rs * 0.1).

(** The anchors of the six [ax.text] labels, in the order of the script. *)
Definition text_anchors (Rs : R) : list (R * R) :=
  [ (0, Rs + 1.4 * Rs); (0, Rs + 0.9 * Rs); (0, 0);
    (0, - Rs - 1.2 * Rs); (3 * Rs, 1.3 * Rs); (3 * Rs, 0.9 * Rs) ].

(** The distance of a point from the centre of a circle, and what it is
    for the point to lie strictly inside it. *)
Definition distance (p q : R * R) : R :=
  sqrt ((p.1 - q.1) ^ 2 + (p.2 - q.2) ^ 2).

Definition inside (c : circle) (p : R * R) : Prop :=
  distance p (centre c) < radius c.

(** ** Properties of [schwarzschild_radius] *)

(** The radius is the mass times one fixed positive rational. *)
Lemma schwarzschild_radius_linear (M : R) :
  schwarzschild_radius M = M * (265432906420e9 / 89875517873681764).
Proof. unfold schwarzschild_radius. cbv zeta. lra. Qed.

Lemma schwarzschild_radius_sign (M : R) :
  (0 < M → 0 < schwarzschild_radius M) ∧
  (M <= 0 → schwarzschild_radius M <= 0).
Proof.
  rewrite schwarzschild_radius_linear.
  split; intros HM; nra.
Qed.

(** C2 (confirmed): for every mass the function returns the closed form
    2 * G * (M * Msun) / c^2 with G = 6.67430e-11, c = 299792458 and
    Msun = 1.98847e30, over the reals and, operation for operation, over
    the doubles.  Being a function of the mass alone, it is deterministic
    and has no effect. *)
Theorem schwarzschild_radius_closed_form :
  (∀ M : R, schwarzschild_radius M = Spec.Rs M) ∧
  (∀ M : PrimFloat.float,
     Binary64.schwarzschild_radius M = Binary64.closed_form M).
Proof.
  split; intros M.
  - unfold schwarzschild_radius, Spec.Rs, Spec.G, Spec.Msun, Spec.c.
    reflexivity.
  - unfold Binary64.schwarzschild_radius, Binary64.closed_form.
    cbv zeta. f_equal.
Qed.

(** C4 (confirmed): a positive mass has a positive radius, and twice the
    mass has twice the radius. *)
Theorem schwarzschild_radius_positive_linear (M : R) :
  0 < M →
  0 < schwarzschild_radius M ∧
  schwarzschild_radius (2 * M) = 2 * schwarzschild_radius M.
Proof.
  intros HM. split.
  - by apply schwarzschild_radius_sign.
  - rewrite !schwarzschild_radius_linear. lra.
Qed.

Lemma schwarzschild_radius_positive_linear_witness :
  0 < schwarzschild_radius 10 ∧
  schwarzschild_radius (2 * 10) = 2 * schwarzschild_radius 10.
Proof. apply (schwarzschild_radius_positive_linear 10). lra. Defined.

(** C8 (confirmed): a mass that is zero or negative is not rejected: the
    function returns the closed form all the same, and that radius is zero
    or negative. *)
Theorem schwarzschild_radius_nonpositive_mass (M : R) :
  M <= 0 →
  schwarzschild_radius M = Spec.Rs M ∧ schwarzschild_radius M <= 0.
Proof.
  intros HM. split.
  - reflexivity.
  - by apply schwarzschild_radius_sign.
Qed.

Lemma schwarzschild_radius_nonpositive_mass_witness :
  schwarzschild_radius (-1) = Spec.Rs (-1) ∧ schwarzschild_radius (-1) <= 0.
Proof. apply (schwarzschild_radius_nonpositive_mass (-1)). lra. Defined.

Module Binary64Facts.
Import PrimInt63.
Import PrimFloat FloatOps SpecFloat.
#[local] Set Warnings "-inexact-float".

(** The integer square of the speed of light, converted to a double, is
    the double the literal denotes, and also the double product [c * c]. *)
Lemma c_squared_conversions :
  of_uint63 89875517873681764%uint63 = Binary64.c_squared ∧
  (299792458 * 299792458)%float = Binary64.c_squared.
Proof. split; vm_compute; reflexivity. Qed.

(** For the module-level mass of the script, [M = 10], the double
    returned is 8118077478378299 * 2^-38, printed 29533.393820668785. *)
Lemma radius_of_10 :
  Prim2SF Binary64.Rs
  = S754_finite false 8118077478378299 (-38).
Proof. vm_compute. reflexivity. Qed.

(** Doubling the mass 10 doubles the double returned, exactly. *)
Lemma radius_of_20 :
  Binary64.schwarzschild_radius 20%float
  = (2 * Binary64.schwarzschild_radius 10)%float.
Proof. vm_compute. reflexivity. Qed.

(** No exception for a mass that is zero or negative: a zero or a
    negative double comes back. *)
Lemma radius_of_nonpositive :
  Prim2SF (Binary64.schwarzschild_radius 0%float) = S754_zero false ∧
  Prim2SF (Binary64.schwarzschild_radius (-1)%float)
  = S754_finite true 6494461982702639 (-41).
Proof. split; vm_compute; reflexivity. Qed.
End Binary64Facts.

(** C3 (confirmed): the radius of a black hole of 10 solar masses is within
    a relative distance of 1e-3 of 29539 metres, both for the closed form
    over the reals and for the double the Python function returns. *)
Theorem radius_of_ten_solar_masses :
  Rabs (Script.Rs - 29539) <= 1e-3 * 29539 ∧
  ∃ v, Binary64.to_R Binary64.Rs = Some v ∧
       Rabs (v - 29539) <= 1e-3 * 29539.
Proof.
  split.
  - unfold Script.Rs, Script.M. rewrite schwarzschild_radius_linear.
    apply Rabs_le. lra.
  - unfold Binary64.to_R. rewrite Binary64Facts.radius_of_10.
    eexists. split; [reflexivity|].
    cbn [powerRZ]. rewrite pow_IZR.
    change (2 ^ Z.of_nat (Pos.to_nat 38))%Z with 274877906944%Z.
    apply Rabs_le. lra.
Qed.


(** ** Properties of [accretion_disk] *)

(** *** The cell functions *)

Section Cells.
Variable Rs : R.
Hypothesis Rs_pos : 0 < Rs.

Lemma radial_cell_nonneg (a b : R) : 0 <= radial_cell a b.
Proof. apply sqrt_pos. Qed.

Lemma radial_cell_opp (a b : R) : radial_cell (- a) (- b) = radial_cell a b.
Proof. unfold radial_cell. f_equal. ring. Qed.

Lemma radial_cell_origin : radial_cell 0 0 = 0.
Proof.
  unfold radial_cell. replace (0 ^ 2 + 0 ^ 2) with 0 by ring. apply sqrt_0.
Qed.

(** The exponent of line 46 is [3 - r / Rs]. *)
Lemma brightness_cell_exponent (r : R) :
  brightness_cell Rs r = exp (3 - r / Rs).
Proof. unfold brightness_cell. f_equal. field. lra. Qed.

Lemma brightness_cell_pos (r : R) : 0 < brightness_cell Rs r.
Proof. apply exp_pos. Qed.

Lemma brightness_cell_decreasing (r1 r2 : R) :
  r1 < r2 → brightness_cell Rs r2 < brightness_cell Rs r1.
Proof.
  intros Hlt. rewrite !brightness_cell_exponent.
  apply exp_increasing.
  assert (r1 / Rs < r2 / Rs); [|lra].
  apply Rmult_lt_compat_r; [by apply Rinv_0_lt_compat|done].
Qed.

Lemma brightness_cell_origin : brightness_cell Rs 0 = exp 3.
Proof. rewrite brightness_cell_exponent. f_equal. field. lra. Qed.

Lemma brightness_cell_3Rs : brightness_cell Rs (3 * Rs) = 1.
Proof.
  rewrite brightness_cell_exponent, <- exp_0. f_equal. field. lra.
Qed.

Lemma brightness_cell_le_origin (r : R) :
  0 <= r → brightness_cell Rs r <= exp 3.
Proof.
  intros [Hr| <-].
  - left. rewrite <- brightness_cell_origin.
    by apply brightness_cell_decreasing.
  - right. apply brightness_cell_origin.
Qed.

Lemma color_cell_origin : color_cell Rs 0 = 1.
Proof.
  unfold color_cell, clip.
  replace (1 - 0 / (5 * Rs)) with 1 by (field; lra).
  rewrite Rmax_left by lra. by rewrite Rmin_left by lra.
Qed.

Lemma color_cell_outside (r : R) : 5 * Rs <= r → color_cell Rs r = 0.
Proof.
  intros Hr. unfold color_cell, clip.
  assert (1 <= r / (5 * Rs)).
  { apply (Rmult_le_reg_r (5 * Rs)); [lra|].
    replace (r / (5 * Rs) * (5 * Rs)) with r by (field; lra). lra. }
  rewrite Rmax_right by lra. by rewrite Rmin_right by lra.
Qed.

End Cells.

(** The clamp needs no assumption on its argument. *)
Lemma clip_bounds (a_min a_max v : R) :
  a_min <= a_max → a_min <= clip a_min a_max v <= a_max.
Proof.
  intros Hle. unfold clip. split.
  - apply Rmin_glb; [done|apply Rmax_r].
  - apply Rmin_l.
Qed.

Lemma color_cell_bounds (Rs r : R) : 0 <= color_cell Rs r <= 1.
Proof. apply clip_bounds. lra. Qed.

(** *** From arrays to cells *)

Lemma np_map_lookup (f : R → R) (a : ndarray) (i : nat) :
  data (np_map f a) !! i = f <$> data a !! i.
Proof. apply list_lookup_fmap. Qed.

Lemma np_map_map (f g : R → R) (a : ndarray) :
  np_map f (np_map g a) = np_map (f ∘ g) a.
Proof. unfold np_map. simpl. by rewrite <- list_fmap_compose. Qed.

Lemma np_zip_Some (f : R → R → R) (a b : ndarray) :
  shape a = shape b →
  np_zip f a b = Some (NDArray (shape a) (zip_with f (data a) (data b))).
Proof. intros Heq. unfold np_zip. by rewrite decide_True. Qed.

Lemma np_zip_None (f : R → R → R) (a b : ndarray) :
  shape a ≠ shape b → np_zip f a b = None.
Proof. intros Hne. unfold np_zip. by rewrite decide_False. Qed.

Lemma np_zip_inv (f : R → R → R) (a b c : ndarray) :
  np_zip f a b = Some c →
  shape a = shape b ∧ c = NDArray (shape a) (zip_with f (data a) (data b)).
Proof.
  unfold np_zip. destruct (decide (shape a = shape b)); [|done].
  intros [= <-]. done.
Qed.

Lemma zip_with_same_list {A B C D} (f : B → C → D) (g : A → B) (h : A → C)
    (l : list A) :
  zip_with f (g <$> l) (h <$> l) = (λ v, f (g v) (h v)) <$> l.
Proof. induction l as [|v l IH]; [done|]. cbn. by f_equal. Qed.

Lemma fmap_of_zip_with {A B C D} (f : A → B → C) (g : C → D)
    (l : list A) (k : list B) :
  g <$> zip_with f l k = zip_with (λ a b, g (f a b)) l k.
Proof.
  revert k. induction l as [|a l IH]; intros [|b k]; [done..|].
  cbn. f_equal. apply IH.
Qed.

Lemma brightness_cells (r : ndarray) (Rs : R) :
  brightness r Rs = np_map (brightness_cell Rs) r.
Proof. unfold brightness. by rewrite !np_map_map. Qed.

Lemma color_cells (r : ndarray) (Rs : R) :
  color r Rs = np_map (color_cell Rs) r.
Proof. unfold color, np_clip. by rewrite !np_map_map. Qed.

Lemma radial_distance_cells (x y : ndarray) :
  shape x = shape y →
  radial_distance x y
  = Some (NDArray (shape x) (zip_with radial_cell (data x) (data y))).
Proof.
  intros Heq. unfold radial_distance.
  rewrite np_zip_Some by done. simpl. f_equal.
  unfold np_map. simpl. f_equal.
  by rewrite fmap_of_zip_with, zip_with_fmap_l, zip_with_fmap_r.
Qed.

Lemma radial_distance_inv (x y r : ndarray) :
  radial_distance x y = Some r →
  shape x = shape y ∧
  r = NDArray (shape x) (zip_with radial_cell (data x) (data y)).
Proof.
  intros Hr. destruct (decide (shape x = shape y)) as [Heq|Hne].
  - rewrite radial_distance_cells in Hr by done. by injection Hr as <-.
  - unfold radial_distance in Hr. by rewrite np_zip_None in Hr.
Qed.

Lemma accretion_disk_cells (x y : ndarray) (Rs : R) :
  shape x = shape y →
  accretion_disk x y Rs
  = Some (NDArray (shape x) (zip_with (field_cell Rs) (data x) (data y))).
Proof.
  intros Heq. unfold accretion_disk.
  rewrite radial_distance_cells by done. simpl.
  rewrite brightness_cells, color_cells, np_zip_Some by done.
  unfold np_map. simpl. do 2 f_equal.
  by rewrite zip_with_same_list, fmap_of_zip_with.
Qed.

Lemma accretion_disk_inv (x y out : ndarray) (Rs : R) :
  accretion_disk x y Rs = Some out →
  shape x = shape y ∧
  out = NDArray (shape x) (zip_with (field_cell Rs) (data x) (data y)).
Proof.
  intros Hout. destruct (decide (shape x = shape y)) as [Heq|Hne].
  - rewrite accretion_disk_cells in Hout by done. by injection Hout as <-.
  - unfold accretion_disk, radial_distance in Hout.
    by rewrite np_zip_None in Hout.
Qed.

(** The output has the shape of the inputs, and as many cells. *)
Lemma accretion_disk_shape (x y out : ndarray) (Rs : R) :
  well_formed x → well_formed y →
  accretion_disk x y Rs = Some out →
  shape out = shape x ∧ well_formed out.
Proof.
  intros Hx Hy [Heq ->]%accretion_disk_inv. split; [done|].
  unfold well_formed in *. simpl.
  rewrite length_zip_with_l_eq; [done|]. by rewrite Hx, Hy, Heq.
Qed.

(** Every cell of the output is a cell of [x] and the matching cell of
    [y] put through the three lines. *)
Lemma accretion_disk_lookup (x y out : ndarray) (Rs : R) (i : nat) (v : R) :
  accretion_disk x y Rs = Some out →
  data out !! i = Some v →
  ∃ a b, data x !! i = Some a ∧ data y !! i = Some b ∧
         v = field_cell Rs a b.
Proof.
  intros [_ ->]%accretion_disk_inv. simpl.
  intros (a & b & -> & Ha & Hb)%lookup_zip_with_Some. eauto.
Qed.

(** *** The claims on the field *)

(** C1 (counterexample): with [Rs = 1] the brightness term does not rise
    towards [r = 3 * Rs]: between [r = 0] and [r = 1], both below 3, it
    falls from [exp 3] to [exp 2]. *)
Lemma brightness_does_not_peak_at_3Rs : ¬ brightness_peaks_at_3Rs 1.
Proof.
  intros [Hrise _].
  specialize (Hrise 0 1).
  assert (Hfall : brightness_cell 1 1 < brightness_cell 1 0)
    by (apply brightness_cell_decreasing; lra).
  lra.
Qed.

(** C1 (amended): for a positive [Rs] the brightness term falls strictly
    as the radial distance grows, on both sides of [3 * Rs]; at
    [r = 3 * Rs] it is 1.  On arrays: of two cells of [r], the one farther
    out is strictly the darker in [brightness]. *)
Theorem brightness_strictly_decreasing
    (r : ndarray) (Rs : R) (i j : nat) (ri rj : R) :
  0 < Rs →
  data r !! i = Some ri →
  data r !! j = Some rj →
  ri < rj →
  (∃ bi bj, data (brightness r Rs) !! i = Some bi ∧
            data (brightness r Rs) !! j = Some bj ∧
            bj < bi) ∧
  brightness (scalar (3 * Rs)) Rs = scalar 1.
Proof.
  intros HRs Hi Hj Hlt. rewrite !brightness_cells. split.
  - exists (brightness_cell Rs ri), (brightness_cell Rs rj).
    rewrite !np_map_lookup, Hi, Hj.
    split_and!; [done..|]. by apply brightness_cell_decreasing.
  - unfold np_map, scalar. simpl. by rewrite brightness_cell_3Rs.
Qed.

Lemma brightness_strictly_decreasing_witness :
  (∃ bi bj, data (brightness (NDArray [2%nat] [0; 1]) 1) !! 0%nat = Some bi ∧
            data (brightness (NDArray [2%nat] [0; 1]) 1) !! 1%nat = Some bj ∧
            bj < bi) ∧
  brightness (scalar (3 * 1)) 1 = scalar 1.
Proof.
  apply (brightness_strictly_decreasing (NDArray [2%nat] [0; 1]) 1 0 1 0 1);
    [lra | reflexivity | reflexivity | lra].
Defined.

(** C5 (confirmed): for a positive [Rs], in a cell where [x] and [y] are
    both 0 the radial distance is 0, the brightness [exp 3], the color 1 and
    the field [exp 3]. *)
Theorem accretion_disk_origin (x y : ndarray) (Rs : R) (i : nat) :
  0 < Rs →
  shape x = shape y →
  data x !! i = Some 0 →
  data y !! i = Some 0 →
  ∃ r out,
    radial_distance x y = Some r ∧
    accretion_disk x y Rs = Some out ∧
    data r !! i = Some 0 ∧
    data (brightness r Rs) !! i = Some (exp 3) ∧
    data (color r Rs) !! i = Some 1 ∧
    data out !! i = Some (exp 3).
Proof.
  intros HRs Heq Hx Hy.
  assert (Hr : zip_with radial_cell (data x) (data y) !! i = Some 0).
  { apply lookup_zip_with_Some. exists 0, 0.
    by rewrite radial_cell_origin. }
  eexists _, _.
  split; [by apply radial_distance_cells|].
  split; [by apply accretion_disk_cells|].
  rewrite brightness_cells, color_cells, !np_map_lookup. simpl.
  rewrite Hr. simpl.
  rewrite brightness_cell_origin, color_cell_origin by done.
  split_and!; [done..|].
  apply lookup_zip_with_Some. exists 0, 0. split_and!; [|done..].
  unfold field_cell.
  rewrite radial_cell_origin, brightness_cell_origin, color_cell_origin
    by done.
  ring.
Qed.

Lemma accretion_disk_origin_witness :
  ∃ r out,
    radial_distance (scalar 0) (scalar 0) = Some r ∧
    accretion_disk (scalar 0) (scalar 0) 1 = Some out ∧
    data r !! 0%nat = Some 0 ∧
    data (brightness r 1) !! 0%nat = Some (exp 3) ∧
    data (color r 1) !! 0%nat = Some 1 ∧
    data out !! 0%nat = Some (exp 3).
Proof.
  apply (accretion_disk_origin (scalar 0) (scalar 0) 1 0);
    [lra | reflexivity | reflexivity | reflexivity].
Defined.

(** C6 (confirmed): for a positive [Rs], in a cell whose radial distance is
    [5 * Rs], or more, the color is 0 and so is the field, whatever the
    brightness there. *)
Theorem accretion_disk_zero_from_5Rs
    (x y r : ndarray) (Rs : R) (i : nat) (ri : R) :
  0 < Rs →
  radial_distance x y = Some r →
  data r !! i = Some ri →
  5 * Rs <= ri →
  data (color r Rs) !! i = Some 0 ∧
  ∃ out, accretion_disk x y Rs = Some out ∧ data out !! i = Some 0.
Proof.
  intros HRs [Heq ->]%radial_distance_inv Hi Hfar. simpl in Hi.
  split.
  - rewrite color_cells, np_map_lookup. simpl. rewrite Hi. simpl.
    by rewrite color_cell_outside.
  - eexists. split; [by apply accretion_disk_cells|]. simpl.
    apply lookup_zip_with_Some in Hi as (a & b & -> & Ha & Hb).
    apply lookup_zip_with_Some. exists a, b. split_and!; [|done..].
    unfold field_cell. rewrite color_cell_outside by done. ring.
Qed.

Lemma accretion_disk_zero_from_5Rs_witness :
  data (color (scalar 5) 1) !! 0%nat = Some 0 ∧
  ∃ out, accretion_disk (scalar 3) (scalar 4) 1 = Some out ∧
         data out !! 0%nat = Some 0.
Proof.
  apply (accretion_disk_zero_from_5Rs (scalar 3) (scalar 4) (scalar 5) 1 0 5).
  - lra.
  - rewrite radial_distance_cells by reflexivity.
    unfold scalar, radial_cell. simpl. do 3 f_equal.
    replace (3 * (3 * 1) + 4 * (4 * 1)) with (5 * 5) by lra.
    apply sqrt_square. lra.
  - reflexivity.
  - lra.
Defined.

(** C7 (confirmed): whatever the grid and the radius, every cell of the
    color component is at least 0 and at most 1. *)
Theorem color_in_unit_interval
    (x y r : ndarray) (Rs : R) (i : nat) (v : R) :
  radial_distance x y = Some r →
  data (color r Rs) !! i = Some v →
  0 <= v <= 1.
Proof.
  intros _. rewrite color_cells, np_map_lookup.
  destruct (data r !! i) as [ri|]; simpl; [|done].
  intros [= <-]. apply color_cell_bounds.
Qed.

Lemma color_in_unit_interval_witness : 0 <= color_cell 1 (radial_cell 0 0) <= 1.
Proof.
  apply (color_in_unit_interval (scalar 0) (scalar 0)
           (scalar (radial_cell 0 0)) 1 0 (color_cell 1 (radial_cell 0 0)));
    reflexivity.
Defined.

(** C9 (confirmed): negating both coordinate arrays leaves the field
    unchanged, cell for cell; no assumption on the shapes or on the radius
    is needed. *)
Theorem accretion_disk_point_reflection (x y : ndarray) (Rs : R) :
  accretion_disk (np_map Ropp x) (np_map Ropp y) Rs = accretion_disk x y Rs.
Proof.
  destruct (decide (shape x = shape y)) as [Heq|Hne].
  - rewrite !accretion_disk_cells by done. simpl. f_equal. f_equal.
    rewrite zip_with_fmap_l, zip_with_fmap_r.
    apply zip_with_ext; [|done..].
    intros a b. unfold field_cell. by rewrite radial_cell_opp.
  - unfold accretion_disk, radial_distance.
    by rewrite !np_zip_None.
Qed.

(** C10 (confirmed): for a positive [Rs] every cell of the field is at
    least 0 and at most [exp 3], the value at the origin. *)
Theorem accretion_disk_bounds
    (x y out : ndarray) (Rs : R) (i : nat) (v : R) :
  0 < Rs →
  accretion_disk x y Rs = Some out →
  data out !! i = Some v →
  0 <= v <= exp 3.
Proof.
  intros HRs Hout Hv.
  destruct (accretion_disk_lookup _ _ _ _ _ _ Hout Hv) as (a & b & _ & _ & ->).
  unfold field_cell.
  pose proof (radial_cell_nonneg a b) as Hr.
  pose proof (brightness_cell_pos Rs (radial_cell a b)) as Hb0.
  pose proof (brightness_cell_le_origin Rs HRs _ Hr) as Hb1.
  pose proof (color_cell_bounds Rs (radial_cell a b)) as [Hc0 Hc1].
  split; [nra|].
  replace (exp 3) with (exp 3 * 1) by ring.
  apply Rmult_le_compat; lra.
Qed.

Lemma accretion_disk_bounds_witness : 0 <= field_cell 1 0 0 <= exp 3.
Proof.
  apply (accretion_disk_bounds (scalar 0) (scalar 0)
           (scalar (field_cell 1 0 0)) 1 0 (field_cell 1 0 0));
    [lra | reflexivity | reflexivity].
Defined.


(** ** The grid of the driver *)

(** *** [np.linspace] *)

(** Whatever branch is taken, the samples are an affine function of the
    index. *)
Lemma linspace_data (start stop : R) (num : nat) (endpoint : bool) :
  data (linspace start stop num endpoint)
  = (λ i : nat,
       start + INR i * (stop - start)
               / INR (if endpoint then (num - 1)%nat else num))
    <$> seq 0 num.
Proof.
  unfold linspace. cbv zeta. simpl.
  set (div := if endpoint then (num - 1)%nat else num).
  set (f := λ i : nat, start + INR i * (stop - start) / INR div).
  assert (Hbody :
    (λ v, v + start) <$>
      (if decide (0 < div)%nat
       then if Req_dec_T ((stop - start) / INR div) 0
            then (λ v, v * (stop - start)) <$> ((λ v, v / INR div) <$> (INR <$> seq 0 num))
            else (λ v, v * ((stop - start) / INR div)) <$> (INR <$> seq 0 num)
       else (λ v, v * (stop - start)) <$> (INR <$> seq 0 num))
    = f <$> seq 0 num).
  { destruct (decide (0 < div)%nat) as [Hdiv|Hdiv].
    - assert (INR div ≠ 0) by (apply not_0_INR; lia).
      destruct (Req_dec_T _ 0) as [Hz|Hnz];
        rewrite <- !list_fmap_compose; apply list_fmap_ext;
        intros _ i _; unfold f; simpl; field; done.
    - assert (div = 0%nat) as Hdiv0 by lia.
      rewrite <- !list_fmap_compose. apply list_fmap_ext.
      intros k i [-> Hk]%lookup_seq.
      assert (k = 0%nat) as -> by (unfold div in Hdiv0; destruct endpoint; lia).
      unfold f. simpl. unfold Rdiv. ring. }
  rewrite Hbody.
  destruct (endpoint && bool_decide (1 < num)%nat) eqn:Hlast; [|done].
  apply andb_prop in Hlast as [-> Hnum%bool_decide_eq_true].
  apply list_insert_id.
  rewrite list_lookup_fmap, lookup_seq_lt by lia. simpl. f_equal.
  unfold f, div. field. apply not_0_INR. lia.
Qed.

Arguments linspace : simpl never.

Lemma linspace_length (start stop : R) (num : nat) (endpoint : bool) :
  length (data (linspace start stop num endpoint)) = num.
Proof. by rewrite linspace_data, length_fmap, length_seq. Qed.

Lemma linspace_lookup (start stop : R) (num : nat) (endpoint : bool) (i : nat) :
  (i < num)%nat →
  data (linspace start stop num endpoint) !! i
  = Some (start + INR i * (stop - start)
                  / INR (if endpoint then (num - 1)%nat else num)).
Proof.
  intros Hi. by rewrite linspace_data, list_lookup_fmap, lookup_seq_lt.
Qed.

Lemma linspace_first (start stop : R) (num : nat) (endpoint : bool) :
  (0 < num)%nat →
  data (linspace start stop num endpoint) !! 0%nat = Some start.
Proof.
  intros Hnum. rewrite linspace_lookup by done. f_equal.
  simpl. unfold Rdiv. ring.
Qed.

Lemma linspace_last (start stop : R) (num : nat) :
  (2 <= num)%nat →
  data (linspace start stop num true) !! (num - 1)%nat = Some stop.
Proof.
  intros Hnum. rewrite linspace_lookup by lia. f_equal.
  field. apply not_0_INR. lia.
Qed.

(** With the samples in hand, the order of two of them is the order of
    their indices when [start < stop]. *)
Lemma linspace_increasing
    (start stop : R) (num : nat) (endpoint : bool) (i j : nat) (a b : R) :
  start < stop →
  data (linspace start stop num endpoint) !! i = Some a →
  data (linspace start stop num endpoint) !! j = Some b →
  (i < j)%nat →
  a < b.
Proof.
  intros Hlt Ha Hb Hij.
  assert (j < num)%nat as Hj
    by (rewrite <- (linspace_length start stop num endpoint);
        by eapply lookup_lt_Some).
  rewrite linspace_lookup in Ha, Hb by lia.
  injection Ha as <-. injection Hb as <-.
  set (div := if endpoint then (num - 1)%nat else num).
  assert (0 < INR div).
  { apply lt_0_INR. unfold div. destruct endpoint; lia. }
  assert (INR i < INR j) by by apply lt_INR.
  assert (INR i * (stop - start) / INR div < INR j * (stop - start) / INR div);
    [|lra].
  apply Rmult_lt_compat_r; [by apply Rinv_0_lt_compat|nra].
Qed.

(** *** Minimum and maximum of an array *)

Lemma foldl_Rmin_is (l : list R) (v m : R) :
  m ∈ v :: l → Forall (λ w, m <= w) (v :: l) → foldl Rmin v l = m.
Proof.
  revert v. induction l as [|w l IH]; intros v Hin Hall; simpl.
  - by apply list_elem_of_singleton in Hin.
  - apply Forall_cons_1 in Hall as [Hv [Hw Hl]%Forall_cons_1].
    apply IH.
    + apply elem_of_cons in Hin as [->|[->|Hin]%elem_of_cons].
      * rewrite Rmin_left by done. by left.
      * rewrite Rmin_right by done. by left.
      * by right.
    + apply Forall_cons; [by apply Rmin_glb|done].
Qed.

Lemma foldl_Rmax_is (l : list R) (v m : R) :
  m ∈ v :: l → Forall (λ w, w <= m) (v :: l) → foldl Rmax v l = m.
Proof.
  revert v. induction l as [|w l IH]; intros v Hin Hall; simpl.
  - by apply list_elem_of_singleton in Hin.
  - apply Forall_cons_1 in Hall as [Hv [Hw Hl]%Forall_cons_1].
    apply IH.
    + apply elem_of_cons in Hin as [->|[->|Hin]%elem_of_cons].
      * rewrite Rmax_left by done. by left.
      * rewrite Rmax_right by done. by left.
      * by right.
    + apply Forall_cons; [by apply Rmax_lub|done].
Qed.

Lemma np_min_is (a : ndarray) (m : R) :
  m ∈ data a → Forall (λ w, m <= w) (data a) → np_min a = Some m.
Proof.
  unfold np_min. destruct (data a) as [|v l]; intros Hin Hall.
  - by apply elem_of_nil in Hin.
  - f_equal. by apply foldl_Rmin_is.
Qed.

Lemma np_max_is (a : ndarray) (m : R) :
  m ∈ data a → Forall (λ w, w <= m) (data a) → np_max a = Some m.
Proof.
  unfold np_max. destruct (data a) as [|v l]; intros Hin Hall.
  - by apply elem_of_nil in Hin.
  - f_equal. by apply foldl_Rmax_is.
Qed.

(** Samples of an interval stay in the interval. *)
Lemma linspace_bounds (start stop : R) (num : nat) (v : R) :
  start <= stop →
  v ∈ data (linspace start stop num true) →
  start <= v <= stop.
Proof.
  intros Hle [i Hi]%list_elem_of_lookup.
  assert (i < num)%nat as Hnum
    by (rewrite <- (linspace_length start stop num true);
        by eapply lookup_lt_Some).
  rewrite linspace_lookup in Hi by done. injection Hi as <-.
  destruct (decide (num = 1%nat)) as [->|Hne].
  - assert (i = 0%nat) as -> by lia. simpl. unfold Rdiv.
    split; [|apply Rle_trans with start; [|done]]; right; ring.
  - assert (0 < INR (num - 1)) by (apply lt_0_INR; lia).
    assert (0 <= INR i) by apply pos_INR.
    assert (INR i <= INR (num - 1)) by (apply le_INR; lia).
    assert (0 <= INR i / INR (num - 1) <= 1) as [Hq0 Hq1].
    { split.
      - apply Rmult_le_pos; [done|]. left. by apply Rinv_0_lt_compat.
      - apply (Rmult_le_reg_r (INR (num - 1))); [done|].
        replace (INR i / INR (num - 1) * INR (num - 1)) with (INR i)
          by (field; lra).
        lra. }
    replace (start + INR i * (stop - start) / INR (num - 1))
      with (start + INR i / INR (num - 1) * (stop - start))
      by (field; lra).
    nra.
Qed.

(** *** [np.meshgrid] *)

Lemma meshgrid_well_formed (x y : ndarray) :
  well_formed (meshgrid x y).1 ∧ well_formed (meshgrid x y).2.
Proof.
  unfold well_formed, meshgrid. simpl. rewrite !length_join. split.
  - rewrite (sum_list_fmap_same (length (data x))).
    + rewrite length_replicate. lia.
    + by apply Forall_replicate.
  - rewrite (sum_list_fmap_same (length (data x))).
    + rewrite length_fmap. lia.
    + apply Forall_fmap, Forall_forall. intros v _. simpl.
      apply length_replicate.
Qed.

(** Row [i], column [j] holds [x[j]] in the first array and [y[i]] in the
    second. *)
Lemma meshgrid_lookup (x y : ndarray) (i j : nat) (a b : R) :
  data x !! j = Some a →
  data y !! i = Some b →
  data (meshgrid x y).1 !! (i * length (data x) + j)%nat = Some a ∧
  data (meshgrid x y).2 !! (i * length (data x) + j)%nat = Some b.
Proof.
  intros Ha Hb.
  pose proof (lookup_lt_Some _ _ _ Ha) as Hj.
  pose proof (lookup_lt_Some _ _ _ Hb) as Hi.
  unfold meshgrid. simpl. split.
  - apply join_lookup_Some_same_length'; [|done|].
    + by apply Forall_replicate.
    + exists (data x). split; [|done]. by apply lookup_replicate_2.
  - apply join_lookup_Some_same_length'; [|done|].
    + apply Forall_fmap, Forall_forall. intros v _. simpl.
      apply length_replicate.
    + exists (replicate (length (data x)) b). split.
      * by rewrite list_lookup_fmap, Hb.
      * by apply lookup_replicate_2.
Qed.

(** *** The field on the grid *)

Lemma Driver_Z_cells (Rs : R) (num : nat) :
  Driver.Z Rs num
  = Some (NDArray [num; num]
            (zip_with (field_cell Rs) (data (Driver.X Rs num))
                                      (data (Driver.Y Rs num)))).
Proof.
  unfold Driver.Z. rewrite accretion_disk_cells by done.
  do 2 f_equal. unfold Driver.X, meshgrid. cbn [fst shape].
  unfold Driver.x, Driver.y. by rewrite !linspace_length.
Qed.

Lemma Driver_Z_item (Rs : R) (num i j : nat) (a b : R) :
  data (Driver.x Rs num) !! j = Some a →
  data (Driver.y Rs num) !! i = Some b →
  ∃ out, Driver.Z Rs num = Some out ∧
         item2 out i j = Some (field_cell Rs a b).
Proof.
  intros Ha Hb. eexists. split; [apply Driver_Z_cells|].
  pose proof (lookup_lt_Some _ _ _ Ha) as Hj.
  pose proof (lookup_lt_Some _ _ _ Hb) as Hi.
  unfold Driver.x in Hj. unfold Driver.y in Hi.
  rewrite linspace_length in Hj, Hi.
  unfold item2. cbn [shape data]. rewrite decide_True by done.
  apply lookup_zip_with_Some. exists a, b.
  destruct (meshgrid_lookup _ _ _ _ _ _ Ha Hb) as [HX HY].
  unfold Driver.x in HX, HY at 1. rewrite linspace_length in HX, HY.
  done.
Qed.

(** ** More on [accretion_disk] *)

(** *** The radial distance and the field of one cell *)

Lemma radial_cell_swap (a b : R) : radial_cell a b = radial_cell b a.
Proof. unfold radial_cell. f_equal. ring. Qed.

Lemma radial_cell_opp_l (a b : R) : radial_cell (- a) b = radial_cell a b.
Proof. unfold radial_cell. f_equal. ring. Qed.

Lemma radial_cell_opp_r (a b : R) : radial_cell a (- b) = radial_cell a b.
Proof. unfold radial_cell. f_equal. ring. Qed.

Lemma radial_cell_ge_abs_l (a b : R) : Rabs a <= radial_cell a b.
Proof.
  unfold radial_cell. rewrite <- sqrt_Rsqr_abs.
  apply sqrt_le_1_alt. unfold Rsqr. nra.
Qed.

Lemma radial_cell_ge_abs_r (a b : R) : Rabs b <= radial_cell a b.
Proof. rewrite radial_cell_swap. apply radial_cell_ge_abs_l. Qed.

Lemma radial_cell_pos (a b : R) : a ≠ 0 → 0 < radial_cell a b.
Proof.
  intros Ha. apply Rlt_le_trans with (Rabs a).
  - by apply Rabs_pos_lt.
  - apply radial_cell_ge_abs_l.
Qed.

Lemma radial_cell_scale (k a b : R) :
  0 <= k → radial_cell (k * a) (k * b) = k * radial_cell a b.
Proof.
  intros Hk. unfold radial_cell.
  replace ((k * a) ^ 2 + (k * b) ^ 2) with (k * k * (a ^ 2 + b ^ 2)) by ring.
  rewrite sqrt_mult_alt by nra. by rewrite sqrt_square.
Qed.

Lemma field_cell_scale (k Rs a b : R) :
  0 < k → Rs ≠ 0 → field_cell (k * Rs) (k * a) (k * b) = field_cell Rs a b.
Proof.
  intros Hk HRs. unfold field_cell.
  rewrite radial_cell_scale by lra.
  unfold brightness_cell, color_cell. do 3 f_equal; field; lra.
Qed.

Lemma color_cell_inside (Rs r : R) :
  0 < Rs → 0 <= r → r <= 5 * Rs → color_cell Rs r = 1 - r / (5 * Rs).
Proof.
  intros HRs Hr0 Hr. unfold color_cell, clip.
  assert (0 <= r / (5 * Rs) <= 1) as [Hq0 Hq1].
  { split.
    - apply Rmult_le_pos; [done|]. left. apply Rinv_0_lt_compat. lra.
    - apply (Rmult_le_reg_r (5 * Rs)); [lra|].
      replace (r / (5 * Rs) * (5 * Rs)) with r by (field; lra). lra. }
  rewrite Rmax_left by lra. by rewrite Rmin_right by lra.
Qed.

Lemma color_cell_pos (Rs r : R) :
  0 < Rs → 0 <= r → r < 5 * Rs → 0 < color_cell Rs r.
Proof.
  intros HRs Hr0 Hr. rewrite color_cell_inside by lra.
  assert (r / (5 * Rs) < 1); [|lra].
  apply (Rmult_lt_reg_r (5 * Rs)); [lra|].
  replace (r / (5 * Rs) * (5 * Rs)) with r by (field; lra). lra.
Qed.


(** With a negative radius the clamp is idle: the argument of [np.clip]
    is at least 1. *)
Lemma color_cell_negative_radius (Rs r : R) :
  Rs < 0 → 0 <= r → color_cell Rs r = 1.
Proof.
  intros HRs Hr. unfold color_cell, clip.
  assert (r / (5 * Rs) <= 0).
  { replace (r / (5 * Rs)) with (- (r * / (- (5 * Rs)))) by (field; lra).
    assert (0 <= r * / - (5 * Rs)); [|lra].
    apply Rmult_le_pos; [done|]. left. apply Rinv_0_lt_compat. lra. }
  rewrite Rmax_left by lra. by rewrite Rmin_left by lra.
Qed.

(** The cell [i] of the result is the product line 49 forms from the cell
    [i] of [r]. *)
Lemma accretion_disk_from_r
    (x y r out : ndarray) (Rs : R) (i : nat) (ri v : R) :
  radial_distance x y = Some r →
  accretion_disk x y Rs = Some out →
  data r !! i = Some ri →
  data out !! i = Some v →
  0 <= ri ∧ v = brightness_cell Rs ri * color_cell Rs ri.
Proof.
  intros [_ ->]%radial_distance_inv [_ ->]%accretion_disk_inv. simpl.
  intros (a & b & -> & Ha & Hb)%lookup_zip_with_Some
         (a' & b' & -> & Ha' & Hb')%lookup_zip_with_Some.
  assert (a' = a) as -> by congruence.
  assert (b' = b) as -> by congruence.
  split; [apply radial_cell_nonneg|done].
Qed.

(** *** What the function keeps, what it ignores *)

(** X1: on two well-formed arrays of one shape the function returns an
    array, of that shape and with as many cells. *)
Theorem accretion_disk_preserves_shape (x y : ndarray) (Rs : R) :
  shape x = shape y →
  well_formed x →
  well_formed y →
  ∃ out, accretion_disk x y Rs = Some out ∧
         shape out = shape x ∧
         length (data out) = length (data x) ∧
         well_formed out.
Proof.
  intros Heq Hx Hy. eexists. split; [by apply accretion_disk_cells|].
  unfold well_formed in *. simpl.
  rewrite length_zip_with_l_eq by (by rewrite Hx, Hy, Heq).
  done.
Qed.

Lemma accretion_disk_preserves_shape_witness :
  ∃ out, accretion_disk (NDArray [2%nat] [3; 0]) (NDArray [2%nat] [4; 1]) 1
         = Some out ∧
         shape out = [2%nat] ∧
         length (data out) = 2%nat ∧
         well_formed out.
Proof.
  apply (accretion_disk_preserves_shape
           (NDArray [2%nat] [3; 0]) (NDArray [2%nat] [4; 1]) 1);
    reflexivity.
Defined.

(** X2: the field depends on the two coordinates through the radial
    distance only: exchanging [x] and [y], or negating one of them, gives
    the same array. *)
Theorem accretion_disk_swap_and_mirror (x y : ndarray) (Rs : R) :
  accretion_disk y x Rs = accretion_disk x y Rs ∧
  accretion_disk (np_map Ropp x) y Rs = accretion_disk x y Rs ∧
  accretion_disk x (np_map Ropp y) Rs = accretion_disk x y Rs.
Proof.
  destruct (decide (shape x = shape y)) as [Heq|Hne].
  - rewrite !accretion_disk_cells by done. simpl. split_and!.
    + rewrite Heq. do 2 f_equal. rewrite <- zip_with_flip.
      apply zip_with_ext; [|done..]. intros a b. unfold flip, field_cell.
      by rewrite radial_cell_swap.
    + do 2 f_equal. rewrite zip_with_fmap_l.
      apply zip_with_ext; [|done..]. intros a b. unfold field_cell.
      by rewrite radial_cell_opp_l.
    + do 2 f_equal. rewrite zip_with_fmap_r.
      apply zip_with_ext; [|done..]. intros a b. unfold field_cell.
      by rewrite radial_cell_opp_r.
  - unfold accretion_disk, radial_distance.
    rewrite !np_zip_None; [done|done..|by intros ?].
Qed.



(** X4: for a positive [Rs] a cell of the field is positive exactly when
    its radial distance is below [5 * Rs]; from [5 * Rs] on it is 0. *)
Theorem accretion_disk_positive_iff_inside
    (x y r out : ndarray) (Rs : R) (i : nat) (ri v : R) :
  0 < Rs →
  radial_distance x y = Some r →
  accretion_disk x y Rs = Some out →
  data r !! i = Some ri →
  data out !! i = Some v →
  (0 < v ↔ ri < 5 * Rs) ∧ (v = 0 ↔ 5 * Rs <= ri).
Proof.
  intros HRs Hr Hout Hri Hv.
  destruct (accretion_disk_from_r _ _ _ _ _ _ _ _ Hr Hout Hri Hv)
    as [Hri0 ->].
  pose proof (brightness_cell_pos Rs ri) as Hb.
  destruct (Rlt_le_dec ri (5 * Rs)) as [Hin|Hfar].
  - pose proof (color_cell_pos Rs ri HRs Hri0 Hin) as Hc.
    assert (0 < brightness_cell Rs ri * color_cell Rs ri)
      by by apply Rmult_lt_0_compat.
    split; split; intros; lra.
  - rewrite color_cell_outside by done.
    split; split; intros; lra.
Qed.

Lemma accretion_disk_positive_iff_inside_witness :
  (0 < field_cell 1 3 4 ↔ radial_cell 3 4 < 5 * 1) ∧
  (field_cell 1 3 4 = 0 ↔ 5 * 1 <= radial_cell 3 4).
Proof.
  apply (accretion_disk_positive_iff_inside
           (scalar 3) (scalar 4) (scalar (radial_cell 3 4))
           (scalar (field_cell 1 3 4)) 1 0 (radial_cell 3 4)
           (field_cell 1 3 4));
    [lra | reflexivity..].
Defined.



(** X6: a negative radius is not rejected, and then the clamp is idle:
    the color is 1 in every cell and the field is
    [exp (3 + r / - Rs)], at least [exp 3] and growing with the distance. *)
Theorem accretion_disk_negative_radius
    (x y r out : ndarray) (Rs : R) (i : nat) (ri v : R) :
  Rs < 0 →
  radial_distance x y = Some r →
  accretion_disk x y Rs = Some out →
  data r !! i = Some ri →
  data out !! i = Some v →
  data (color r Rs) !! i = Some 1 ∧
  v = exp (3 + ri / - Rs) ∧
  exp 3 <= v.
Proof.
  intros HRs Hr Hout Hri Hv.
  destruct (accretion_disk_from_r _ _ _ _ _ _ _ _ Hr Hout Hri Hv)
    as [Hri0 ->].
  rewrite color_cell_negative_radius by done.
  assert (Hexp : brightness_cell Rs ri * 1 = exp (3 + ri / - Rs)).
  { unfold brightness_cell. rewrite Rmult_1_r. f_equal. field. lra. }
  split_and!.
  - rewrite color_cells, np_map_lookup, Hri. simpl.
    by rewrite color_cell_negative_radius.
  - done.
  - rewrite Hexp.
    assert (0 <= ri / - Rs).
    { apply Rmult_le_pos; [done|]. left. apply Rinv_0_lt_compat. lra. }
    destruct (Req_dec (ri / - Rs) 0) as [->|Hne].
    + right. f_equal. lra.
    + left. apply exp_increasing. lra.
Qed.

Lemma accretion_disk_negative_radius_witness :
  data (color (scalar (radial_cell 3 4)) (-1)) !! 0%nat = Some 1 ∧
  field_cell (-1) 3 4 = exp (3 + radial_cell 3 4 / - -1) ∧
  exp 3 <= field_cell (-1) 3 4.
Proof.
  apply (accretion_disk_negative_radius
           (scalar 3) (scalar 4) (scalar (radial_cell 3 4))
           (scalar (field_cell (-1) 3 4)) (-1) 0 (radial_cell 3 4)
           (field_cell (-1) 3 4));
    [lra | reflexivity..].
Defined.

(** ** More on [schwarzschild_radius] *)

(** X7: the radius is a linear function of the mass. *)
Theorem schwarzschild_radius_is_linear (a b M1 M2 : R) :
  schwarzschild_radius (a * M1 + b * M2)
  = a * schwarzschild_radius M1 + b * schwarzschild_radius M2.
Proof. rewrite !schwarzschild_radius_linear. lra. Qed.

(** X8: a larger mass has a strictly larger radius, so that two different
    masses never share a radius. *)
Theorem schwarzschild_radius_increasing (M1 M2 : R) :
  M1 < M2 → schwarzschild_radius M1 < schwarzschild_radius M2.
Proof. intros Hlt. rewrite !schwarzschild_radius_linear. nra. Qed.

Lemma schwarzschild_radius_increasing_witness :
  schwarzschild_radius 1 < schwarzschild_radius 10.
Proof. apply (schwarzschild_radius_increasing 1 10). lra. Defined.

Module Binary64Edge.
Import PrimFloat FloatOps SpecFloat.
#[local] Set Warnings "-inexact-float".

(** X9: on doubles, a mass that is not a number, infinite or a negative
    zero goes through the three operations unchecked and comes back as
    NaN, as the infinity of its sign, as the negative zero; and a finite
    mass such as 1e300, whose radius would fit a double, already overflows
    in the conversion to kilograms and comes back infinite.  The smallest
    positive double still has a positive radius. *)
Theorem unchecked_mass :
  Binary64.schwarzschild_radius nan = nan ∧
  Binary64.schwarzschild_radius infinity = infinity ∧
  Binary64.schwarzschild_radius neg_infinity = neg_infinity ∧
  Prim2SF (Binary64.schwarzschild_radius (-0)%float) = S754_zero true ∧
  Binary64.schwarzschild_radius 1e300%float = infinity ∧
  Prim2SF (Binary64.schwarzschild_radius 0x1p-1074%float)
  = S754_finite false 2953 (-1074).
Proof. repeat split; vm_compute; reflexivity. Qed.
End Binary64Edge.

(** ** The field on the grid of the script *)

Lemma Driver_x_lookup (Rs : R) (num k : nat) :
  (k < num)%nat →
  data (Driver.x Rs num) !! k
  = Some (-5 * Rs + INR k * (5 * Rs - -5 * Rs) / INR (num - 1)).
Proof. intros Hk. unfold Driver.x. by rewrite linspace_lookup. Qed.

Lemma Driver_x_length (Rs : R) (num : nat) :
  length (data (Driver.x Rs num)) = num.
Proof. apply linspace_length. Qed.

(** The first and the last sample are [5 * Rs] away from 0. *)
Lemma Driver_x_ends (Rs : R) (num k : nat) :
  0 < Rs →
  (k < num)%nat →
  k = 0%nat ∨ k = (num - 1)%nat →
  ∃ a, data (Driver.x Rs num) !! k = Some a ∧ Rabs a = 5 * Rs.
Proof.
  intros HRs Hk Hend.
  destruct (decide (k = 0%nat)) as [->|Hne].
  - exists (-5 * Rs). split.
    + unfold Driver.x. by apply linspace_first.
    + rewrite Rabs_left; lra.
  - destruct Hend as [?| ->]; [done|].
    exists (5 * Rs). split.
    + unfold Driver.x. apply linspace_last. lia.
    + rewrite Rabs_right; lra.
Qed.


(** With an even number of samples none of them is 0. *)
Lemma Driver_x_nonzero (Rs : R) (num k : nat) (a : R) :
  0 < Rs →
  Nat.Even num →
  data (Driver.x Rs num) !! k = Some a →
  a ≠ 0.
Proof.
  intros HRs [m ->] Ha Hzero.
  assert (k < 2 * m)%nat as Hk
    by (rewrite <- (Driver_x_length Rs (2 * m)); by eapply lookup_lt_Some).
  rewrite Driver_x_lookup in Ha by done. apply (inj Some) in Ha.
  assert (0 < INR (2 * m - 1)) as Hd by (apply lt_0_INR; lia).
  assert (INR (2 * k) = INR (2 * m - 1)) as Heq%INR_eq; [|lia].
  rewrite mult_INR. simpl (INR 2).
  apply (Rmult_eq_reg_r (5 * Rs / INR (2 * m - 1)));
    [|apply Rgt_not_eq, Rlt_gt, Rmult_lt_0_compat;
      [lra|by apply Rinv_0_lt_compat]].
  replace ((1 + 1) * INR k * (5 * Rs / INR (2 * m - 1)))
    with (INR k * (5 * Rs - -5 * Rs) / INR (2 * m - 1)) by (field; lra).
  replace (INR (2 * m - 1) * (5 * Rs / INR (2 * m - 1)))
    with (5 * Rs) by (field; lra).
  lra.
Qed.

(** X10: with at least two samples the axis has [num] of them, starts at
    [-5 * Rs], ends at [5 * Rs], and two consecutive samples are
    [10 * Rs / (num - 1)] apart. *)
Theorem grid_axis_samples (Rs : R) (num : nat) :
  (2 <= num)%nat →
  length (data (Driver.x Rs num)) = num ∧
  data (Driver.x Rs num) !! 0%nat = Some (-5 * Rs) ∧
  data (Driver.x Rs num) !! (num - 1)%nat = Some (5 * Rs) ∧
  ∀ k, (S k < num)%nat →
       ∃ a b, data (Driver.x Rs num) !! k = Some a ∧
              data (Driver.x Rs num) !! S k = Some b ∧
              b - a = 10 * Rs / INR (num - 1).
Proof.
  intros Hnum. split_and!.
  - apply Driver_x_length.
  - unfold Driver.x. apply linspace_first. lia.
  - unfold Driver.x. by apply linspace_last.
  - intros k Hk. eexists _, _.
    split; [apply Driver_x_lookup; lia|].
    split; [apply Driver_x_lookup; lia|].
    rewrite S_INR. field. apply not_0_INR. lia.
Qed.

Lemma grid_axis_samples_witness :
  length (data (Driver.x 1 400)) = 400%nat ∧
  data (Driver.x 1 400) !! 0%nat = Some (-5 * 1) ∧
  data (Driver.x 1 400) !! (400 - 1)%nat = Some (5 * 1) ∧
  ∀ k, (S k < 400)%nat →
       ∃ a b, data (Driver.x 1 400) !! k = Some a ∧
              data (Driver.x 1 400) !! S k = Some b ∧
              b - a = 10 * 1 / INR (400 - 1).
Proof. apply (grid_axis_samples 1 400). lia. Defined.

(** X11: for a positive [Rs] and at least two samples, the extent handed
    to [imshow] is [(-5 * Rs, 5 * Rs, -5 * Rs, 5 * Rs)]: the smallest
    sample of each axis is its first and the largest its last. *)
Theorem grid_extent (Rs : R) (num : nat) :
  0 < Rs →
  (2 <= num)%nat →
  Driver.extent Rs num
  = (Some (-5 * Rs), Some (5 * Rs), Some (-5 * Rs), Some (5 * Rs)).
Proof.
  intros HRs Hnum.
  assert (Hmin : np_min (Driver.x Rs num) = Some (-5 * Rs)).
  { apply np_min_is.
    - apply list_elem_of_lookup. exists 0%nat.
      unfold Driver.x. apply linspace_first. lia.
    - apply list.Forall_forall. intros v Hv.
      apply linspace_bounds in Hv; lra. }
  assert (Hmax : np_max (Driver.x Rs num) = Some (5 * Rs)).
  { apply np_max_is.
    - apply list_elem_of_lookup. exists (num - 1)%nat.
      unfold Driver.x. by apply linspace_last.
    - apply list.Forall_forall. intros v Hv.
      apply linspace_bounds in Hv; lra. }
  unfold Driver.extent.
  change (Driver.y Rs num) with (Driver.x Rs num).
  by rewrite Hmin, Hmax.
Qed.

Lemma grid_extent_witness :
  Driver.extent 1 400
  = (Some (-5 * 1), Some (5 * 1), Some (-5 * 1), Some (5 * 1)).
Proof. apply (grid_extent 1 400); [lra|lia]. Defined.

Lemma meshgrid_lengths (x y : ndarray) :
  length (data (meshgrid x y).1) = (length (data y) * length (data x))%nat ∧
  length (data (meshgrid x y).2) = (length (data y) * length (data x))%nat.
Proof.
  destruct (meshgrid_well_formed x y) as [HX HY].
  unfold well_formed in HX, HY. simpl in HX, HY. simpl. lia.
Qed.

Lemma Driver_XY_length (Rs : R) (num : nat) :
  length (data (Driver.X Rs num)) = (num * num)%nat ∧
  length (data (Driver.Y Rs num)) = (num * num)%nat.
Proof.
  unfold Driver.X, Driver.Y.
  destruct (meshgrid_lengths (Driver.x Rs num) (Driver.y Rs num)) as [-> ->].
  change (Driver.y Rs num) with (Driver.x Rs num).
  by rewrite Driver_x_length.
Qed.

(** X12: on the grid the call of line 60 always returns an array: it has
    [num] rows and [num] columns, [num * num] cells (400 by 400, 160000
    cells, in the script). *)
Theorem grid_field_shape (Rs : R) (num : nat) :
  ∃ out, Driver.Z Rs num = Some out ∧
         shape out = [num; num] ∧
         length (data out) = (num * num)%nat.
Proof.
  eexists. split; [apply Driver_Z_cells|]. split; [done|].
  cbn [data].
  destruct (Driver_XY_length Rs num) as [HX HY].
  rewrite length_zip_with_l_eq; [done|]. by rewrite HX, HY.
Qed.

Lemma Driver_Z_cell_exists (Rs : R) (num i j : nat) :
  (i < num)%nat →
  (j < num)%nat →
  ∃ out a b,
    Driver.Z Rs num = Some out ∧
    data (Driver.x Rs num) !! j = Some a ∧
    data (Driver.y Rs num) !! i = Some b ∧
    item2 out i j = Some (field_cell Rs a b).
Proof.
  intros Hi Hj.
  destruct (lookup_lt_is_Some_2 (data (Driver.x Rs num)) j) as [a Ha];
    [by rewrite Driver_x_length|].
  destruct (lookup_lt_is_Some_2 (data (Driver.y Rs num)) i) as [b Hb];
    [unfold Driver.y; by rewrite linspace_length|].
  destruct (Driver_Z_item Rs num i j a b Ha Hb) as (out & Hout & Hitem).
  by exists out, a, b.
Qed.

(** X13: row [i], column [j] of the field is the three lines applied to
    [x[j]] and [y[i]]. *)
Theorem grid_field_cell (Rs : R) (num i j : nat) :
  (i < num)%nat →
  (j < num)%nat →
  ∃ out a b,
    Driver.Z Rs num = Some out ∧
    data (Driver.x Rs num) !! j = Some a ∧
    data (Driver.y Rs num) !! i = Some b ∧
    item2 out i j = Some (field_cell Rs a b).
Proof. apply Driver_Z_cell_exists. Qed.

Lemma grid_field_cell_witness :
  ∃ out a b,
    Driver.Z 1 400 = Some out ∧
    data (Driver.x 1 400) !! 7%nat = Some a ∧
    data (Driver.y 1 400) !! 3%nat = Some b ∧
    item2 out 3 7 = Some (field_cell 1 a b).
Proof. apply (grid_field_cell 1 400 3 7); lia. Defined.

Lemma field_cell_outside (Rs a b : R) :
  0 < Rs → 5 * Rs <= radial_cell a b → field_cell Rs a b = 0.
Proof.
  intros HRs Hfar. unfold field_cell.
  rewrite color_cell_outside by done. ring.
Qed.

(** X14: for a positive [Rs] the field is 0 all along the border of the
    grid: in the first and the last row and in the first and the last
    column. *)
Theorem grid_border_is_zero (Rs : R) (num i j : nat) :
  0 < Rs →
  (i < num)%nat →
  (j < num)%nat →
  i = 0%nat ∨ i = (num - 1)%nat ∨ j = 0%nat ∨ j = (num - 1)%nat →
  ∃ out, Driver.Z Rs num = Some out ∧ item2 out i j = Some 0.
Proof.
  intros HRs Hi Hj Hborder.
  assert (∃ a b, data (Driver.x Rs num) !! j = Some a ∧
                 data (Driver.y Rs num) !! i = Some b ∧
                 5 * Rs <= radial_cell a b) as (a & b & Ha & Hb & Hfar).
  { destruct (decide (i = 0%nat ∨ i = (num - 1)%nat)) as [Hrow|Hrow].
    - destruct (Driver_x_ends Rs num i HRs Hi Hrow) as (b & Hb & Habs).
      destruct (lookup_lt_is_Some_2 (data (Driver.x Rs num)) j) as [a Ha];
        [by rewrite Driver_x_length|].
      exists a, b. split_and!; [done..|].
      rewrite <- Habs. apply radial_cell_ge_abs_r.
    - assert (j = 0%nat ∨ j = (num - 1)%nat) as Hcol by tauto.
      destruct (Driver_x_ends Rs num j HRs Hj Hcol) as (a & Ha & Habs).
      destruct (lookup_lt_is_Some_2 (data (Driver.y Rs num)) i) as [b Hb];
        [unfold Driver.y; by rewrite linspace_length|].
      exists a, b. split_and!; [done..|].
      rewrite <- Habs. apply radial_cell_ge_abs_l. }
  destruct (Driver_Z_item Rs num i j a b Ha Hb) as (out & Hout & Hitem).
  exists out. split; [done|].
  by rewrite Hitem, field_cell_outside.
Qed.

Lemma grid_border_is_zero_witness :
  ∃ out, Driver.Z 1 400 = Some out ∧ item2 out 0 137 = Some 0.
Proof.
  apply (grid_border_is_zero 1 400 0 137); [lra | lia | lia | by left].
Defined.



(** X16: for a positive [Rs] and an even number of samples (400 in the
    script) no cell of the grid sits on the origin, and every cell of the
    field stays strictly below [exp 3], the value the origin would have. *)
Theorem grid_misses_origin (Rs : R) (num i j : nat) :
  0 < Rs →
  Nat.Even num →
  (i < num)%nat →
  (j < num)%nat →
  ∃ out a b v,
    Driver.Z Rs num = Some out ∧
    data (Driver.x Rs num) !! j = Some a ∧
    data (Driver.y Rs num) !! i = Some b ∧
    item2 out i j = Some v ∧
    a ≠ 0 ∧ b ≠ 0 ∧ 0 <= v < exp 3.
Proof.
  intros HRs Heven Hi Hj.
  destruct (Driver_Z_cell_exists Rs num i j Hi Hj)
    as (out & a & b & Hout & Ha & Hb & Hitem).
  exists out, a, b, (field_cell Rs a b).
  pose proof (Driver_x_nonzero Rs num j a HRs Heven Ha) as Ha0.
  pose proof (Driver_x_nonzero Rs num i b HRs Heven Hb) as Hb0.
  split_and!; [done..| |].
  - unfold field_cell.
    pose proof (brightness_cell_pos Rs (radial_cell a b)).
    pose proof (color_cell_bounds Rs (radial_cell a b)). nra.
  - unfold field_cell.
    pose proof (radial_cell_pos a b Ha0) as Hr.
    pose proof (brightness_cell_pos Rs (radial_cell a b)) as Hb1.
    pose proof (brightness_cell_decreasing Rs HRs 0 _ Hr) as Hb2.
    rewrite brightness_cell_origin in Hb2 by done.
    pose proof (color_cell_bounds Rs (radial_cell a b)) as [Hc0 Hc1].
    nra.
Qed.

Lemma grid_misses_origin_witness :
  ∃ out a b v,
    Driver.Z 1 400 = Some out ∧
    data (Driver.x 1 400) !! 200%nat = Some a ∧
    data (Driver.y 1 400) !! 199%nat = Some b ∧
    item2 out 199 200 = Some v ∧
    a ≠ 0 ∧ b ≠ 0 ∧ 0 <= v < exp 3.
Proof.
  apply (grid_misses_origin 1 400 199 200); [lra | | lia | lia].
  exists 200%nat. reflexivity.
Defined.

(** *** The field does not depend on the mass *)

Lemma fmap_join_replicate {A B} (f : A → B) (n : nat) (l : list A) :
  mjoin (replicate n (f <$> l)) = f <$> mjoin (replicate n l).
Proof.
  induction n as [|n IH]; [done|].
  simpl. rewrite fmap_app, <- IH. done.
Qed.

Lemma fmap_join_columns {A B} (f : A → B) (n : nat) (l : list A) :
  mjoin ((λ v, replicate n v) <$> (f <$> l))
  = f <$> mjoin ((λ v, replicate n v) <$> l).
Proof.
  induction l as [|v l IH]; [done|].
  simpl. rewrite fmap_app, fmap_replicate. f_equal. apply IH.
Qed.

(** The axis for [Rs] is the axis for the radius 1, stretched by [Rs]. *)
Lemma Driver_x_scale (Rs : R) (num : nat) :
  data (Driver.x Rs num) = Rmult Rs <$> data (Driver.x 1 num).
Proof.
  unfold Driver.x. rewrite !linspace_data, <- list_fmap_compose.
  apply list_fmap_ext. intros _ k _. simpl. unfold Rdiv. ring.
Qed.

Lemma Driver_XY_scale (Rs : R) (num : nat) :
  data (Driver.X Rs num) = Rmult Rs <$> data (Driver.X 1 num) ∧
  data (Driver.Y Rs num) = Rmult Rs <$> data (Driver.Y 1 num).
Proof.
  unfold Driver.X, Driver.Y, meshgrid. cbn [fst snd data].
  change (Driver.y Rs num) with (Driver.x Rs num).
  change (Driver.y 1 num) with (Driver.x 1 num).
  rewrite !Driver_x_length, (Driver_x_scale Rs num). split.
  - apply fmap_join_replicate.
  - apply fmap_join_columns.
Qed.

(** X17: the array drawn is the same for every positive radius, hence for
    every positive mass: the grid is laid out in units of [Rs], and the
    three lines only see the coordinates in those units. *)
Theorem grid_field_independent_of_mass (M1 M2 : R) (num : nat) :
  0 < M1 →
  0 < M2 →
  Driver.Z (schwarzschild_radius M1) num
  = Driver.Z (schwarzschild_radius M2) num.
Proof.
  assert (Hunit : ∀ Rs, 0 < Rs → Driver.Z Rs num = Driver.Z 1 num).
  { intros Rs HRs. rewrite !Driver_Z_cells. do 2 f_equal.
    destruct (Driver_XY_scale Rs num) as [-> ->].
    rewrite zip_with_fmap_l, zip_with_fmap_r.
    apply zip_with_ext; [|done..]. intros a b.
    rewrite <- (Rmult_1_r Rs) at 1.
    apply field_cell_scale; lra. }
  intros HM1 HM2.
  rewrite (Hunit (schwarzschild_radius M1))
    by by apply schwarzschild_radius_sign.
  rewrite (Hunit (schwarzschild_radius M2))
    by by apply schwarzschild_radius_sign.
  done.
Qed.

Lemma grid_field_independent_of_mass_witness :
  Driver.Z (schwarzschild_radius 10) 400
  = Driver.Z (schwarzschild_radius 1) 400.
Proof. apply (grid_field_independent_of_mass 10 1 400); lra. Defined.

(** ** The geometry drawn on the field *)

Lemma distance_from_origin (a b : R) :
  distance (a, b) (0, 0) = radial_cell a b.
Proof. unfold distance, radial_cell. simpl. f_equal. ring. Qed.

Lemma radial_cell_on_circle (rho angle : R) :
  0 <= rho → radial_cell (rho * cos angle) (rho * sin angle) = rho.
Proof.
  intros Hrho. unfold radial_cell.
  replace ((rho * cos angle) ^ 2 + (rho * sin angle) ^ 2)
    with (rho * rho * ((sin angle)² + (cos angle)²)) by (unfold Rsqr; ring).
  rewrite sin2_cos2, Rmult_1_r. by apply sqrt_square.
Qed.

(** X18: there are eight Hawking arrows, the one of rank [k] at the angle
    [k * (2 * PI / 8)]; for a positive [Rs] each starts on the event
    horizon, at the distance [Rs] from the centre, and ends at the distance
    [2 * Rs], on the same ray. *)
Theorem hawking_arrows_geometry (Rs : R) (k : nat) :
  0 < Rs →
  (k < 8)%nat →
  length (hawking_arrows Rs) = 8%nat ∧
  ∃ arrow angle,
    hawking_arrows Rs !! k = Some arrow ∧
    angle = INR k * (2 * PI / 8) ∧
    xytext arrow = (Rs * cos angle, Rs * sin angle) ∧
    xy arrow = (2 * (xytext arrow).1, 2 * (xytext arrow).2) ∧
    distance (xytext arrow) (centre (event_horizon Rs))
    = radius (event_horizon Rs) ∧
    distance (xy arrow) (centre (event_horizon Rs)) = 2 * Rs.
Proof.
  intros HRs Hk. unfold hawking_arrows. split.
  - by rewrite length_fmap, linspace_length.
  - eexists _, (INR k * (2 * PI / 8)).
    rewrite list_lookup_fmap, linspace_lookup by done. simpl.
    replace (0 + INR k * (2 * PI - 0) / (1 + 1 + 1 + 1 + 1 + 1 + 1 + 1))
      with (INR k * (2 * PI / 8)) by (field; lra).
    split_and!; [done..| | |].
    + simpl. f_equal; ring.
    + cbn [xytext event_horizon centre radius].
      rewrite distance_from_origin. apply radial_cell_on_circle. lra.
    + cbn [xy event_horizon centre].
      rewrite distance_from_origin.
      apply radial_cell_on_circle. lra.
Qed.

Lemma hawking_arrows_geometry_witness :
  length (hawking_arrows 1) = 8%nat ∧
  ∃ arrow angle,
    hawking_arrows 1 !! 3%nat = Some arrow ∧
    angle = INR 3 * (2 * PI / 8) ∧
    xytext arrow = (1 * cos angle, 1 * sin angle) ∧
    xy arrow = (2 * (xytext arrow).1, 2 * (xytext arrow).2) ∧
    distance (xytext arrow) (centre (event_horizon 1))
    = radius (event_horizon 1) ∧
    distance (xy arrow) (centre (event_horizon 1)) = 2 * 1.
Proof. apply (hawking_arrows_geometry 1 3); [lra|lia]. Defined.

(** X19: for a positive [Rs] the arrow labelled "Interior Space" starts
    outside the event horizon and points at a spot inside it, outside the
    disc drawn for the singularity, which itself lies inside the horizon. *)
Theorem interior_space_arrow (Rs : R) :
  0 < Rs →
  ¬ inside (event_horizon Rs) (xytext (interior_space Rs)) ∧
  inside (event_horizon Rs) (xy (interior_space Rs)) ∧
  ¬ inside (singularity Rs) (xy (interior_space Rs)) ∧
  (∀ p, inside (singularity Rs) p → inside (event_horizon Rs) p).
Proof.
  intros HRs. unfold inside.
  cbn [interior_space xy xytext event_horizon singularity centre radius].
  assert (Htip : distance (0, -0.5 * Rs) (0, 0) = 0.5 * Rs).
  { rewrite distance_from_origin. unfold radial_cell.
    replace (0 ^ 2 + (-0.5 * Rs) ^ 2) with (0.5 * Rs * (0.5 * Rs)) by (simpl; lra).
    apply sqrt_square. lra. }
  assert (Htail : 3 * Rs <= distance (3 * Rs, -2 * Rs) (0, 0)).
  { rewrite distance_from_origin.
    apply Rle_trans with (Rabs (3 * Rs)); [|apply radial_cell_ge_abs_l].
    rewrite Rabs_right; lra. }
  split_and!; try lra.
  intros p Hp. lra.
Qed.

Lemma interior_space_arrow_witness :
  ¬ inside (event_horizon 1) (xytext (interior_space 1)) ∧
  inside (event_horizon 1) (xy (interior_space 1)) ∧
  ¬ inside (singularity 1) (xy (interior_space 1)) ∧
  (∀ p, inside (singularity 1) p → inside (event_horizon 1) p).
Proof. apply (interior_space_arrow 1). lra. Defined.

(** X20: for a positive [Rs] every text label is anchored strictly inside
    the square the image covers, [-5 * Rs .. 5 * Rs] on both axes. *)
Theorem text_anchors_inside_extent (Rs : R) :
  0 < Rs →
  Forall (λ p, -5 * Rs < p.1 < 5 * Rs ∧ -5 * Rs < p.2 < 5 * Rs)
         (text_anchors Rs).
Proof.
  intros HRs. unfold text_anchors.
  repeat (apply Forall_cons; [simpl; lra|]). apply Forall_nil.
Qed.

Lemma text_anchors_inside_extent_witness :
  Forall (λ p, -5 * 1 < p.1 < 5 * 1 ∧ -5 * 1 < p.2 < 5 * 1)
         (text_anchors 1).
Proof. apply (text_anchors_inside_extent 1). lra. Defined.

(** ** The brightest cells of the grid *)





